(** * rollup-plugin-body-iife: the import/body splitter and the IIFE wrapper

    A shallow embedding of [src/index.ts].  JavaScript strings are sequences
    of UTF-16 code units, arrays are lists, array indices and the reported
    line number are integers ([findIndex] answers [-1], and [slice] accepts
    negative indices), and a [throw] is the [Throw] branch of a completion. *)

From Stdlib Require Import ZArith NArith List Bool Lia Ascii String DecimalString DecimalZ.
Import ListNotations.

Local Open Scope Z_scope.

(** ** The part of the JavaScript runtime the plugin calls *)

Module JS.

Definition codeunit := N.
Definition jsstring := list codeunit.

(** An ASCII literal of the source, as code units. *)
Definition lit (s : string) : jsstring :=
  map N_of_ascii (list_ascii_of_string s).
Arguments lit s%_string.

(** The line feed and the double quote. *)
Definition LF : codeunit := 10%N.
Definition DQ : codeunit := 34%N.

(** [a === b] on two strings. *)
Fixpoint strictEq (a b : jsstring) : bool :=
  match a, b with
  | [], [] => true
  | x :: a', y :: b' => N.eqb x y && strictEq a' b'
  | _, _ => false
  end.

(** [s.startsWith(p)]. *)
Fixpoint startsWith (p s : jsstring) : bool :=
  match p, s with
  | [], _ => true
  | _ :: _, [] => false
  | x :: p', y :: s' => N.eqb x y && startsWith p' s'
  end.

(** The class [\s] of a regular expression: WhiteSpace and LineTerminator
    of ECMAScript (tab, LF, VT, FF, CR, space, NBSP, the space separators
    of Unicode, LS, PS and the byte order mark). *)
Definition isWhiteSpace (c : codeunit) : bool :=
  ((9 <=? c) && (c <=? 13) || (c =? 32) || (c =? 160) || (c =? 5760)
   || (8192 <=? c) && (c <=? 8202) || (c =? 8232) || (c =? 8233)
   || (c =? 8239) || (c =? 8287) || (c =? 12288) || (c =? 65279))%N.

(** [/^\s/.test(s)]: the first code unit is in [\s]. *)
Definition testLeadingSpace (s : jsstring) : bool :=
  match s with
  | [] => false
  | c :: _ => isWhiteSpace c
  end.

(** [s.split(sep)] for a separator of one code unit: the line under
    construction and the lines after it. *)
Fixpoint splitFrom (sep : codeunit) (s : jsstring) : jsstring * list jsstring :=
  match s with
  | [] => ([], [])
  | c :: s' =>
      let (cur, rest) := splitFrom sep s' in
      if N.eqb c sep then ([], cur :: rest) else (c :: cur, rest)
  end.

Definition split (sep : codeunit) (s : jsstring) : list jsstring :=
  let (cur, rest) := splitFrom sep s in cur :: rest.

(** [a.join(sep)] for a separator of one code unit. *)
Fixpoint join (sep : codeunit) (a : list jsstring) : jsstring :=
  match a with
  | [] => []
  | [s] => s
  | s :: a' => s ++ sep :: join sep a'
  end.

(** [a.findIndex(p)]: the loop over [k = 0, 1, ...], [-1] when [p] holds
    nowhere. *)
Fixpoint findIndexFrom {A : Type} (p : A -> bool) (a : list A) (k : Z) : Z :=
  match a with
  | [] => -1
  | x :: a' => if p x then k else findIndexFrom p a' (k + 1)
  end.

Definition findIndex {A : Type} (p : A -> bool) (a : list A) : Z :=
  findIndexFrom p a 0.

(** [a.some(p)]. *)
Definition some {A : Type} (p : A -> bool) (a : list A) : bool :=
  existsb p a.

(** A relative index of [slice]: counted from the end when negative,
    clamped to [0 .. len]. *)
Definition relativeIndex (len rel : Z) : Z :=
  if rel <? 0 then Z.max (len + rel) 0 else Z.min rel len.

(** [a.slice(start, fin)]; [fin = None] is the call with one argument. *)
Definition slice {A : Type} (a : list A) (start : Z) (fin : option Z) : list A :=
  let len := Z.of_nat (List.length a) in
  let k := relativeIndex len start in
  let final := match fin with
               | None => len
               | Some e => relativeIndex len e
               end in
  firstn (Z.to_nat (final - k)) (skipn (Z.to_nat k) a).

(** The decimal text of an integer number, as template literals print it. *)
Definition numberToString (n : Z) : jsstring :=
  lit (NilEmpty.string_of_int (Z.to_int n)).

End JS.

Import JS.

(** ** The plugin *)

(** [class ImportInBodyError extends Error]. *)
Record ImportInBodyError : Type := { lineNumber : Z }.

Definition message (e : ImportInBodyError) : jsstring :=
  lit "Found import after body started (" ++ numberToString (lineNumber e)
      ++ lit ":1)".

(** What a call ends in: a value, or the thrown error. *)
Inductive completion (A : Type) : Type :=
| Return (a : A)
| Throw (e : ImportInBodyError).
Arguments Return {A} a.
Arguments Throw {A} e.

Definition isImportStatementStart (line : jsstring) : bool :=
  startsWith (lit "import ") line.

Definition couldBeImportBlockLine (line : jsstring) : bool :=
  strictEq line []
  || startsWith (lit "//") line
  || startsWith (lit "/*") line
  || isImportStatementStart line
  || startsWith (lit "}") line
  || testLeadingSpace line.

(** The three locals of [splitSource]. *)
Definition lines (code : jsstring) : list jsstring := split LF code.

Definition bodyStart (code : jsstring) : Z :=
  findIndex (fun line => negb (couldBeImportBlockLine line)) (lines code).

Definition body (code : jsstring) : list jsstring :=
  slice (lines code) (bodyStart code) None.

Definition splitSource (code : jsstring) : completion (jsstring * jsstring) :=
  if some isImportStatementStart (body code) then
    Throw {| lineNumber :=
               bodyStart code + findIndex isImportStatementStart (body code) |}
  else
    Return (join LF (slice (lines code) 0 (Some (bodyStart code))),
            join LF (body code)).

Definition wrapInIife (code : jsstring) : jsstring :=
  lit "(function() {" ++ LF :: code ++ LF :: lit "})();" ++ [LF].

(** The fixed text before and after the wrapped code. *)
Definition iifeOpen : jsstring := lit "(function() {" ++ [LF].
Definition iifeClose : jsstring := LF :: lit "})();".

Section Plugin.

(** [createFilter(options.include, options.exclude)] of @rollup/pluginutils:
    a predicate on file identifiers, supplied by the host. *)
Variable filter : jsstring -> bool.

(** [transform(code, id)]; [None] is [undefined]. *)
Definition transform (code id : jsstring) : completion (option jsstring) :=
  if negb (filter id) then Return None
  else
    match splitSource code with
    | Throw e => Throw e
    | Return (imports, bodyText) =>
        Return (Some (join LF [imports; wrapInIife bodyText]))
    end.

End Plugin.

(** ** Inputs of the scenarios *)

(** [g();\nimport { f } from "x";] *)
Definition scenarioB : jsstring :=
  lit "g();" ++ LF :: lit "import { f } from " ++ DQ :: lit "x" ++ DQ :: lit ";".

(** [import {\n  a,\n  b\n} from "x";\nbody();] *)
Definition scenarioC : jsstring :=
  lit "import {" ++ LF :: lit "  a," ++ LF :: lit "  b" ++ LF
      :: lit "} from " ++ DQ :: lit "x" ++ DQ :: lit ";" ++ LF :: lit "body();".

(** [import a from "b";], a file that holds one import and nothing else. *)
Definition importOnly : jsstring :=
  lit "import a from " ++ DQ :: lit "b" ++ DQ :: lit ";".


(** ** The regions as the specification words them *)

(** The Region Boundary: the index of the first line that could not be an
    import-block line, the line count when there is no such line. *)
Fixpoint specRegionBoundary (ls : list jsstring) : nat :=
  match ls with
  | [] => 0
  | l :: ls' =>
      if couldBeImportBlockLine l then S (specRegionBoundary ls') else 0
  end.

(** The Body Region: the lines whose index is at least the Region Boundary. *)
Definition specBodyRegion (code : jsstring) : list jsstring :=
  skipn (specRegionBoundary (lines code)) (lines code).

(** ** Strings and arrays *)

Lemma startsWith_iff (p s : jsstring) :
  startsWith p s = true <-> exists r, s = p ++ r.
Proof.
  revert s; induction p as [|x p IH]; intros s; simpl.
  - split; [intros _; now exists s | reflexivity].
  - destruct s as [|y s].
    + split; [discriminate | intros [r Hr]; discriminate].
    + rewrite andb_true_iff, N.eqb_eq, IH. split.
      * intros [-> [r ->]]. now exists r.
      * intros [r Hr]. injection Hr as -> ->. split; [reflexivity | now exists r].
Qed.

Lemma strictEq_nil (s : jsstring) : strictEq s [] = true <-> s = [].
Proof. destruct s; simpl; split; congruence. Qed.

Lemma split_nonempty (sep : codeunit) (s : jsstring) : split sep s <> [].
Proof. unfold split. destruct (splitFrom sep s). discriminate. Qed.

Lemma join_split (sep : codeunit) (s : jsstring) : join sep (split sep s) = s.
Proof.
  unfold split. induction s as [|c s IH]; simpl; [reflexivity|].
  destruct (splitFrom sep s) as [cur rest].
  destruct (N.eqb_spec c sep) as [->|_].
  - change (join sep ([] :: cur :: rest)) with (sep :: join sep (cur :: rest)).
    now rewrite IH.
  - destruct rest as [|r rest]; simpl in *; now rewrite IH.
Qed.

Lemma join_app (sep : codeunit) (a b : list jsstring) :
  a <> [] -> b <> [] -> join sep (a ++ b) = join sep a ++ sep :: join sep b.
Proof.
  intros Ha Hb. induction a as [|s a IH]; [contradiction|].
  destruct a as [|t a].
  - destruct b; [contradiction | reflexivity].
  - change (join sep ((s :: t :: a) ++ b)) with (s ++ sep :: join sep ((t :: a) ++ b)).
    rewrite IH by discriminate.
    change (join sep (s :: t :: a)) with (s ++ sep :: join sep (t :: a)).
    now rewrite <- app_assoc.
Qed.

Lemma join_firstn_skipn (sep : codeunit) (a : list jsstring) (n : nat) :
  (0 < n < List.length a)%nat ->
  join sep (firstn n a) ++ sep :: join sep (skipn n a) = join sep a.
Proof.
  intros Hn. rewrite <- join_app, firstn_skipn; [reflexivity| |].
  - intros E. apply (f_equal (@List.length _)) in E.
    rewrite length_firstn in E. simpl in E. lia.
  - intros E. apply (f_equal (@List.length _)) in E.
    rewrite length_skipn in E. simpl in E. lia.
Qed.

(** [findIndex] either finds nothing and answers [-1], or answers the
    position of the first element on which the predicate holds. *)
Lemma findIndexFrom_spec {A : Type} (p : A -> bool) (a : list A) (k : Z) :
  (existsb p a = false /\ findIndexFrom p a k = -1)
  \/ (exists n x, findIndexFrom p a k = k + Z.of_nat n
                  /\ nth_error a n = Some x /\ p x = true
                  /\ existsb p (firstn n a) = false).
Proof.
  revert k; induction a as [|y a IH]; intros k; simpl.
  - now left.
  - destruct (p y) eqn:Hy.
    + right. exists 0%nat, y. simpl. repeat split; [lia | assumption].
    + destruct (IH (k + 1)) as [[He Hf]|(n & x & Hf & Hn & Hx & He)].
      * left. now split.
      * right. exists (S n), x. simpl. rewrite Hy. repeat split; try assumption. lia.
Qed.

Lemma findIndex_spec {A : Type} (p : A -> bool) (a : list A) :
  (existsb p a = false /\ findIndex p a = -1)
  \/ (exists n x, findIndex p a = Z.of_nat n
                  /\ nth_error a n = Some x /\ p x = true
                  /\ existsb p (firstn n a) = false).
Proof. exact (findIndexFrom_spec p a 0). Qed.

Lemma existsb_firstn_false {A : Type} (p : A -> bool) (a : list A) (n m : nat) (y : A) :
  existsb p (firstn n a) = false -> (m < n)%nat -> nth_error a m = Some y ->
  p y = false.
Proof.
  revert n m; induction a as [|x a IH]; intros n m He Hm Hy.
  - destruct m; discriminate.
  - destruct n as [|n]; [lia|]. simpl in He. apply orb_false_iff in He as [Hx He].
    destruct m as [|m]; simpl in Hy.
    + now injection Hy as <-.
    + apply (IH n m); [assumption | lia | assumption].
Qed.

Lemma slice_from {A : Type} (a : list A) (i : Z) :
  0 <= i <= Z.of_nat (List.length a) -> slice a i None = skipn (Z.to_nat i) a.
Proof.
  intros Hi. unfold slice, relativeIndex.
  destruct (Z.ltb_spec i 0); [lia|]. rewrite Z.min_l by lia.
  apply firstn_all2. rewrite length_skipn. lia.
Qed.

Lemma slice_to {A : Type} (a : list A) (i : Z) :
  0 <= i <= Z.of_nat (List.length a) -> slice a 0 (Some i) = firstn (Z.to_nat i) a.
Proof.
  intros Hi. unfold slice, relativeIndex. simpl (0 <? 0).
  destruct (Z.ltb_spec i 0); [lia|]. rewrite !Z.min_l by lia.
  now rewrite Z.sub_0_r.
Qed.

(** ** The boundary *)

(** Either every line could be an import-block line and [bodyStart] is
    [-1], or [bodyStart] is the position of the first line that could not. *)
Lemma bodyStart_cases (code : jsstring) :
  (forallb couldBeImportBlockLine (lines code) = true /\ bodyStart code = -1)
  \/ (exists n line, bodyStart code = Z.of_nat n
                    /\ nth_error (lines code) n = Some line
                    /\ couldBeImportBlockLine line = false
                    /\ forall m l, (m < n)%nat -> nth_error (lines code) m = Some l ->
                                   couldBeImportBlockLine l = true).
Proof.
  unfold bodyStart.
  destruct (findIndex_spec (fun l => negb (couldBeImportBlockLine l)) (lines code))
    as [[He Hf]|(n & x & Hf & Hn & Hx & He)].
  - left. split; [|assumption].
    apply forallb_forall. intros l Hl.
    destruct (couldBeImportBlockLine l) eqn:E; [reflexivity|].
    assert (existsb (fun l => negb (couldBeImportBlockLine l)) (lines code) = true) as C.
    { apply existsb_exists. exists l. now rewrite E. }
    congruence.
  - right. exists n, x. repeat split; try assumption.
    + now apply negb_true_iff.
    + intros m l Hm Hl. apply negb_false_iff.
      exact (existsb_firstn_false _ _ _ _ _ He Hm Hl).
Qed.

Lemma bodyStart_range (code : jsstring) :
  -1 <= bodyStart code < Z.of_nat (List.length (lines code)).
Proof.
  destruct (bodyStart_cases code) as [[_ ->]|(n & l & -> & Hn & _)]; [lia|].
  assert (n < List.length (lines code))%nat
    by (apply nth_error_Some; congruence).
  lia.
Qed.

(** When some line ends the import region, the two slices cut the lines at
    that position. *)
Lemma slices_at_boundary (code : jsstring) :
  0 <= bodyStart code ->
  slice (lines code) 0 (Some (bodyStart code))
    = firstn (Z.to_nat (bodyStart code)) (lines code)
  /\ body code = skipn (Z.to_nat (bodyStart code)) (lines code).
Proof.
  intros H. pose proof (bodyStart_range code) as R. unfold body.
  now rewrite slice_to, slice_from by lia.
Qed.

(** When no line ends the import region, [slice(-1)] is the last line and
    [slice(0, -1)] is every line before it. *)
Lemma slices_without_boundary (code : jsstring) :
  bodyStart code = -1 ->
  slice (lines code) 0 (Some (bodyStart code)) = removelast (lines code)
  /\ body code = [last (lines code) []].
Proof.
  intros H. unfold body. rewrite H.
  pose proof (split_nonempty LF code) as Hne. fold (lines code) in Hne.
  destruct (exists_last Hne) as (front & l & E). rewrite E.
  rewrite removelast_last, last_last.
  unfold slice, relativeIndex. rewrite length_app.
  change (-1 <? 0) with true. change (0 <? 0) with false. cbv iota.
  simpl (List.length [l]).
  set (n := List.length front).
  replace (Z.max (Z.of_nat (n + 1) + -1) 0) with (Z.of_nat n) by lia.
  replace (Z.min 0 (Z.of_nat (n + 1))) with 0 by lia.
  replace (Z.to_nat (Z.of_nat n - 0)) with n by lia.
  replace (Z.to_nat (Z.of_nat (n + 1) - Z.of_nat n)) with 1%nat by lia.
  rewrite Nat2Z.id. change (Z.to_nat 0) with 0%nat. unfold n. split.
  - rewrite skipn_O, firstn_app, Nat.sub_diag, firstn_all. apply app_nil_r.
  - rewrite skipn_app, Nat.sub_diag, skipn_all. reflexivity.
Qed.

(** The guard of [splitSource] decides the outcome. *)
Lemma splitSource_guard (code : jsstring) :
  splitSource code =
    if existsb isImportStatementStart (body code) then
      Throw {| lineNumber :=
                 bodyStart code + findIndex isImportStatementStart (body code) |}
    else
      Return (join LF (slice (lines code) 0 (Some (bodyStart code))),
              join LF (body code)).
Proof. reflexivity. Qed.

(** ** Recombining the two regions *)

(** C1, as the code has it: on every input in which some line ends the
    import region, [splitSource] can return nothing but the two joined
    slices; a boundary after the first line makes import text, a newline and
    body text the input again; a boundary at line 0 makes the import text
    empty and the body text the whole input, so the same concatenation is
    the input after one extra leading newline. *)
Theorem splitSource_recombines (code : jsstring) :
  0 <= bodyStart code ->
  let imports := join LF (slice (lines code) 0 (Some (bodyStart code))) in
  let bodyText := join LF (body code) in
  (forall r, splitSource code = Return r -> r = (imports, bodyText))
  /\ (0 < bodyStart code -> imports ++ LF :: bodyText = code)
  /\ (bodyStart code = 0 ->
      imports = [] /\ bodyText = code /\ imports ++ LF :: bodyText = LF :: code).
Proof.
  intros Hb imports bodyText. split; [|split].
  - intros r Hs. rewrite splitSource_guard in Hs.
    destruct (existsb isImportStatementStart (body code)); [discriminate|].
    now injection Hs as <-.
  - intros Hpos. subst imports bodyText.
    destruct (slices_at_boundary code Hb) as [-> ->].
    pose proof (bodyStart_range code) as R.
    rewrite join_firstn_skipn by lia. apply join_split.
  - intros H0. subst imports bodyText.
    destruct (slices_at_boundary code Hb) as [-> ->]. rewrite H0.
    change (Z.to_nat 0) with 0%nat. rewrite firstn_O, skipn_O.
    unfold lines. rewrite join_split. now repeat split.
Qed.

(** The theorem at scenario C, whose boundary is line 4. *)
Lemma splitSource_recombines_witness :
  splitSource scenarioC
  = Return (lit "import {" ++ LF :: lit "  a," ++ LF :: lit "  b" ++ LF
                :: lit "} from " ++ DQ :: lit "x" ++ DQ :: lit ";",
            lit "body();")
  /\ (lit "import {" ++ LF :: lit "  a," ++ LF :: lit "  b" ++ LF
          :: lit "} from " ++ DQ :: lit "x" ++ DQ :: lit ";")
       ++ LF :: lit "body();" = scenarioC.
Proof.
  assert (0 <= bodyStart scenarioC) as Hb by (vm_compute; discriminate).
  split; [reflexivity|].
  refine (proj1 (proj2 (splitSource_recombines scenarioC Hb)) _).
  vm_compute. reflexivity.
Defined.

(** C1 as stated fails at a boundary of 0: for [g();] the import text is
    empty, and import text, newline and body text make a text one newline
    longer than the input. *)
Lemma splitSource_boundary0_not_lossless :
  bodyStart (lit "g();") = 0
  /\ exists imports bodyText,
       splitSource (lit "g();") = Return (imports, bodyText)
       /\ imports ++ LF :: bodyText <> lit "g();".
Proof.
  split; [reflexivity|].
  exists [], (lit "g();"). split; [reflexivity|].
  vm_compute. discriminate.
Qed.

(** ** Inputs without a boundary *)

(** When every line could be an import-block line, [findIndex] answers
    [-1]; the body is then the last line and the import region the lines
    before it. *)
Lemma all_import_lines_split (code : jsstring) :
  forallb couldBeImportBlockLine (lines code) = true ->
  bodyStart code = -1
  /\ body code = [last (lines code) []]
  /\ slice (lines code) 0 (Some (bodyStart code)) = removelast (lines code).
Proof.
  intros Hall.
  assert (bodyStart code = -1) as Hb.
  { destruct (bodyStart_cases code) as [[_ H]|(n & l & _ & Hn & Hl & _)]; [assumption|].
    rewrite forallb_forall in Hall. apply nth_error_In in Hn.
    rewrite (Hall _ Hn) in Hl. discriminate. }
  destruct (slices_without_boundary code Hb) as [Hi Hbody]. now repeat split.
Qed.

(** C2 on the one-line input [// c]: its only line could be an
    import-block line, yet [bodyStart] is [-1], not the line count 1, and
    [splitSource] returns an empty import text and the whole input as body
    text. *)
Theorem splitSource_comment_only :
  forallb couldBeImportBlockLine (lines (lit "// c")) = true
  /\ List.length (lines (lit "// c")) = 1%nat
  /\ bodyStart (lit "// c") = -1
  /\ splitSource (lit "// c") = Return ([], lit "// c").
Proof. repeat split. Qed.

(** ** The guard *)

(** [findIndex] and the Region Boundary agree when some line ends the import
    region; when none does, [findIndex] answers [-1] and the Region Boundary
    is the line count. *)
Lemma findIndexFrom_specRegionBoundary (ls : list jsstring) (k : Z) :
  findIndexFrom (fun line => negb (couldBeImportBlockLine line)) ls k
  = if (specRegionBoundary ls <? List.length ls)%nat
    then k + Z.of_nat (specRegionBoundary ls)
    else -1.
Proof.
  revert k; induction ls as [|l ls IH]; intros k; [reflexivity|].
  cbn [findIndexFrom specRegionBoundary List.length].
  destruct (couldBeImportBlockLine l); cbn [negb].
  - rewrite IH. change (S (specRegionBoundary ls) <? S (List.length ls))%nat
      with (specRegionBoundary ls <? List.length ls)%nat.
    destruct (specRegionBoundary ls <? List.length ls)%nat; lia.
  - change (0 <? S (List.length ls))%nat with true. cbv iota. simpl. lia.
Qed.

Lemma specRegionBoundary_le (ls : list jsstring) :
  (specRegionBoundary ls <= List.length ls)%nat.
Proof.
  induction ls as [|l ls IH]; simpl; [lia|].
  destruct (couldBeImportBlockLine l); simpl; lia.
Qed.

(** With a boundary, the [body] of the code is the Body Region. *)
Lemma body_is_specBodyRegion (code : jsstring) :
  0 <= bodyStart code ->
  bodyStart code = Z.of_nat (specRegionBoundary (lines code))
  /\ body code = specBodyRegion code.
Proof.
  intros H0. destruct (slices_at_boundary code H0) as [_ Hbody].
  assert (bodyStart code = Z.of_nat (specRegionBoundary (lines code))) as Hb.
  { unfold bodyStart, findIndex in *.
    rewrite findIndexFrom_specRegionBoundary in *.
    destruct (specRegionBoundary (lines code) <? List.length (lines code))%nat; lia. }
  split; [exact Hb|]. rewrite Hbody, Hb, Nat2Z.id. reflexivity.
Qed.

(** Without a boundary, the Body Region is empty. *)
Lemma specBodyRegion_without_boundary (code : jsstring) :
  bodyStart code = -1 -> specBodyRegion code = [].
Proof.
  intros Hb. unfold bodyStart, findIndex in Hb.
  rewrite findIndexFrom_specRegionBoundary in Hb.
  pose proof (specRegionBoundary_le (lines code)) as Hle.
  destruct (Nat.ltb_spec (specRegionBoundary (lines code)) (List.length (lines code)));
    [lia|].
  unfold specBodyRegion. apply skipn_all2. lia.
Qed.

(** When some line ends the import region, the guard throws exactly when a
    line of the Body Region starts with [import ], and otherwise the Body
    Region goes, joined and unchanged, into the wrapper. *)
Lemma guard_with_boundary (code : jsstring) :
  0 <= bodyStart code ->
  ((exists e, splitSource code = Throw e)
   <-> (exists line rest, In line (specBodyRegion code)
                          /\ line = lit "import " ++ rest))
  /\ ((forall line, In line (specBodyRegion code) ->
                    isImportStatementStart line = false) ->
      forall (filter : jsstring -> bool) (id : jsstring),
        filter id = true ->
        transform filter code id
        = Return (Some (join LF (slice (lines code) 0 (Some (bodyStart code)))
                          ++ LF :: wrapInIife (join LF (specBodyRegion code))))).
Proof.
  intros H0. destruct (body_is_specBodyRegion code H0) as [_ Hbody].
  unfold transform. rewrite splitSource_guard, Hbody.
  destruct (existsb isImportStatementStart (specBodyRegion code)) eqn:E; split.
  - split.
    + intros _. apply existsb_exists in E as (line & Hin & Hl).
      apply startsWith_iff in Hl as [rest ->]. now exists (lit "import " ++ rest), rest.
    + intros _. eexists. reflexivity.
  - intros Hnone. apply existsb_exists in E as (line & Hin & Hl).
    rewrite (Hnone _ Hin) in Hl. discriminate.
  - split.
    + intros [e He]. discriminate.
    + intros (line & rest & Hin & ->).
      assert (existsb isImportStatementStart (specBodyRegion code) = true) as C.
      { apply existsb_exists. eexists. split; [exact Hin|].
        apply startsWith_iff. now exists rest. }
      congruence.
  - intros _ filter id Hf. now rewrite Hf.
Qed.

(** C3 on the input [import a from "b";]: its only line could be an
    import-block line, so the Region Boundary is the line count 1 and the
    Body Region is empty, with no line that starts with [import ]; yet
    [splitSource] throws.  On [// c], where the Body Region is empty as
    well, the wrapper is handed the line [// c] instead of the empty Body
    Region. *)
Theorem guard_raises_on_empty_body_region :
  specRegionBoundary (lines importOnly) = 1%nat
  /\ specBodyRegion importOnly = []
  /\ existsb isImportStatementStart (specBodyRegion importOnly) = false
  /\ splitSource importOnly = Throw {| lineNumber := -1 |}
  /\ specBodyRegion (lit "// c") = []
  /\ transform (fun _ => true) (lit "// c") (lit "triggers/a/script.js")
     = Return (Some (LF :: wrapInIife (lit "// c"))).
Proof. repeat split. Qed.

(** ** The reported line *)

(** When some line ends the import region and the guard throws, the number
    it carries is the position, in the whole input, of the first body line
    that starts with [import ]. *)
Lemma lineNumber_at_boundary (code : jsstring) (e : ImportInBodyError) :
  0 <= bodyStart code ->
  splitSource code = Throw e ->
  exists n line,
    lineNumber e = Z.of_nat n
    /\ bodyStart code <= lineNumber e
    /\ nth_error (lines code) n = Some line
    /\ isImportStatementStart line = true
    /\ forall m l, bodyStart code <= Z.of_nat m < lineNumber e ->
                   nth_error (lines code) m = Some l ->
                   isImportStatementStart l = false.
Proof.
  intros Hb Hs. rewrite splitSource_guard in Hs.
  destruct (slices_at_boundary code Hb) as [_ Hbody].
  destruct (findIndex_spec isImportStatementStart (body code))
    as [[He _]|(k & x & Hf & Hk & Hx & Hbefore)].
  - rewrite He in Hs. discriminate.
  - destruct (existsb isImportStatementStart (body code)); [|discriminate].
    injection Hs as <-. simpl. rewrite Hf.
    rewrite Hbody in Hk, Hbefore. rewrite nth_error_skipn in Hk.
    exists (Z.to_nat (bodyStart code) + k)%nat, x.
    repeat split; try assumption; try lia.
    intros m l Hm Hl.
    apply (existsb_firstn_false _ _ _ (m - Z.to_nat (bodyStart code))%nat _ Hbefore); [lia|].
    rewrite nth_error_skipn.
    now replace (Z.to_nat (bodyStart code) + (m - Z.to_nat (bodyStart code)))%nat with m by lia.
Qed.

(** Scenario B: the import on the second line is reported as line 1. *)
Example splitSource_scenarioB :
  splitSource scenarioB = Throw {| lineNumber := 1 |}
  /\ message {| lineNumber := 1 |} = lit "Found import after body started (1:1)".
Proof. split; reflexivity. Qed.

(** C4 on the input [import a from "b";]: the only line starts with
    [import ] and sits at position 0, and [splitSource] throws with the
    line number [-1]. *)
Theorem splitSource_importOnly_reports_minus_one :
  nth_error (lines importOnly) 0 = Some importOnly
  /\ isImportStatementStart importOnly = true
  /\ bodyStart importOnly = -1
  /\ findIndex isImportStatementStart (body importOnly) = 0
  /\ splitSource importOnly = Throw {| lineNumber := -1 |}.
Proof. repeat split. Qed.

(** ** The wrapper *)

(** C5: [wrapInIife] is a function of every string; its result is the
    opening text, the code as it is, the closing text and a newline, and two
    codes with the same wrapping are the same code. *)
Theorem wrapInIife_shape_and_injective :
  (forall code, wrapInIife code = iifeOpen ++ code ++ iifeClose ++ [LF])
  /\ (forall a b, wrapInIife a = wrapInIife b -> a = b).
Proof.
  assert (forall code, wrapInIife code = iifeOpen ++ code ++ iifeClose ++ [LF]) as Hshape.
  { intros code. unfold wrapInIife, iifeOpen, iifeClose.
    now rewrite <- app_assoc. }
  split; [exact Hshape|].
  intros a b H. rewrite !Hshape in H.
  apply app_inv_head in H. now apply app_inv_tail in H.
Qed.

(** ** The line predicate *)

Lemma testLeadingSpace_iff (line : jsstring) :
  testLeadingSpace line = true
  <-> exists c rest, line = c :: rest /\ isWhiteSpace c = true.
Proof.
  destruct line as [|c rest]; simpl; split.
  - discriminate.
  - intros (c & rest & H & _). discriminate.
  - intros H. now exists c, rest.
  - intros (c' & rest' & H & Hc). now injection H as -> ->.
Qed.

(** C6: a line could be an import-block line exactly when it is empty or
    starts with [//], with [/*], with [import ] and its space, with a closing
    brace or with a whitespace code unit; and [bodyStart] is a position [n]
    exactly when line [n] is the first that could not be one. *)
Theorem couldBeImportBlockLine_iff_and_boundary :
  (forall line,
      couldBeImportBlockLine line = true
      <-> (line = []
           \/ (exists rest, line = lit "//" ++ rest)
           \/ (exists rest, line = lit "/*" ++ rest)
           \/ (exists rest, line = lit "import " ++ rest)
           \/ (exists rest, line = lit "}" ++ rest)
           \/ (exists c rest, line = c :: rest /\ isWhiteSpace c = true)))
  /\ (forall code n,
         bodyStart code = Z.of_nat n
         <-> ((exists line, nth_error (lines code) n = Some line
                            /\ couldBeImportBlockLine line = false)
              /\ forall m l, (m < n)%nat -> nth_error (lines code) m = Some l ->
                             couldBeImportBlockLine l = true)).
Proof.
  split.
  - intros line. unfold couldBeImportBlockLine, isImportStatementStart.
    rewrite !orb_true_iff, strictEq_nil, !startsWith_iff, testLeadingSpace_iff.
    tauto.
  - intros code n.
    destruct (bodyStart_cases code) as [[Hall Hb]|(k & line & Hb & Hk & Hl & Hbefore)].
    + rewrite Hb. split; [lia|].
      intros [(line & Hn & Hl) _]. rewrite forallb_forall in Hall.
      apply nth_error_In in Hn. rewrite (Hall _ Hn) in Hl. discriminate.
    + rewrite Hb. split.
      * intros E. apply Nat2Z.inj in E. subst k. split; [now exists line | exact Hbefore].
      * intros [(line' & Hn & Hl') Hbefore'].
        destruct (Nat.lt_trichotomy k n) as [Hlt|[->|Hgt]]; [|reflexivity|].
        -- rewrite (Hbefore' _ _ Hlt Hk) in Hl. discriminate.
        -- rewrite (Hbefore _ _ Hgt Hn) in Hl'. discriminate.
Qed.

(** The theorem at scenario B: its first line [g();] is the first that
    could not be an import-block line, so the boundary is 0. *)
Lemma couldBeImportBlockLine_iff_and_boundary_witness :
  bodyStart scenarioB = 0.
Proof.
  refine (proj2 (proj2 couldBeImportBlockLine_iff_and_boundary scenarioB 0%nat) _).
  split.
  - exists (lit "g();"). split; reflexivity.
  - intros m l Hm. inversion Hm.
Defined.

(** ** The entry point *)

(** C7: for an identifier the filter rejects, [transform] returns
    [undefined] whatever the code is: neither a text nor a thrown error. *)
Theorem transform_ineligible_unchanged
  (filter : jsstring -> bool) (code id : jsstring) :
  filter id = false ->
  transform filter code id = Return None
  /\ (forall out, transform filter code id <> Return (Some out))
  /\ (forall e, transform filter code id <> Throw e).
Proof.
  intros Hf. unfold transform. rewrite Hf. simpl.
  repeat split; intros; discriminate.
Qed.

(** The theorem at scenario B, on which [splitSource] alone would throw. *)
Lemma transform_ineligible_unchanged_witness :
  splitSource scenarioB = Throw {| lineNumber := 1 |}
  /\ transform (fun _ => false) scenarioB (lit "src/util.js") = Return None.
Proof.
  split; [reflexivity|].
  exact (proj1 (transform_ineligible_unchanged
                  (fun _ => false) scenarioB (lit "src/util.js") eq_refl)).
Defined.

(** C8: [splitSource] ends either in its pair of texts or in the error of
    its guard, and does so with [bodyStart] between [-1] and the last
    position; [wrapInIife] has no error at all.  On the empty input both
    texts are empty, and an eligible file is transformed into a newline and
    the wrapper around an empty body. *)
Theorem empty_input_wraps_empty_body :
  (forall code,
      -1 <= bodyStart code < Z.of_nat (List.length (lines code))
      /\ ((exists imports bodyText, splitSource code = Return (imports, bodyText))
          \/ (exists e, splitSource code = Throw e
                        /\ some isImportStatementStart (body code) = true)))
  /\ splitSource [] = Return ([], [])
  /\ wrapInIife [] = iifeOpen ++ iifeClose ++ [LF]
  /\ (forall (filter : jsstring -> bool) (id : jsstring),
         transform filter [] id
         = if filter id then Return (Some ([] ++ LF :: wrapInIife []))
           else Return None).
Proof.
  split; [|split; [reflexivity | split; [reflexivity|]]].
  - intros code. split; [apply bodyStart_range|].
    rewrite splitSource_guard. unfold some.
    destruct (existsb isImportStatementStart (body code)).
    + right. eexists. split; reflexivity.
    + left. eexists. eexists. reflexivity.
  - intros filter id. unfold transform. now destruct (filter id).
Qed.

(** ** Scenarios *)

(** C9: in scenario C the boundary is 4, right after the line
    [} from "x";]; the import region is the four lines of the import, the
    body is [body();], and nothing is thrown. *)
Theorem scenarioC_split :
  bodyStart scenarioC = 4
  /\ nth_error (lines scenarioC) 3
     = Some (lit "} from " ++ DQ :: lit "x" ++ DQ :: lit ";")
  /\ slice (lines scenarioC) 0 (Some (bodyStart scenarioC))
     = [lit "import {"; lit "  a,"; lit "  b";
        lit "} from " ++ DQ :: lit "x" ++ DQ :: lit ";"]
  /\ body scenarioC = [lit "body();"]
  /\ splitSource scenarioC
     = Return (lit "import {" ++ LF :: lit "  a," ++ LF :: lit "  b" ++ LF
                   :: lit "} from " ++ DQ :: lit "x" ++ DQ :: lit ";",
               lit "body();").
Proof. repeat split. Qed.


(** ** More on [split], [join] and [findIndex] *)

Lemma split_app (sep : codeunit) (a b : jsstring) :
  split sep (a ++ sep :: b) = split sep a ++ split sep b.
Proof.
  unfold split. induction a as [|c a IH]; simpl.
  - rewrite N.eqb_refl. now destruct (splitFrom sep b).
  - destruct (splitFrom sep (a ++ sep :: b)) as [cur rest].
    destruct (splitFrom sep a) as [cur1 rest1].
    injection IH as -> ->.
    now destruct (N.eqb c sep).
Qed.

Lemma split_without_sep (sep : codeunit) (s : jsstring) :
  ~ In sep s -> split sep s = [s].
Proof.
  unfold split. induction s as [|c s IH]; simpl; intros Hs; [reflexivity|].
  destruct (splitFrom sep s) as [cur rest].
  assert (~ In sep s) as Hs' by tauto. injection (IH Hs') as -> ->.
  destruct (N.eqb_spec c sep) as [->|_]; [tauto | reflexivity].
Qed.

Lemma split_lines_without_sep (sep : codeunit) (s : jsstring) :
  Forall (fun l => ~ In sep l) (split sep s).
Proof.
  unfold split. induction s as [|c s IH]; simpl.
  - constructor; [tauto | constructor].
  - destruct (splitFrom sep s) as [cur rest].
    inversion IH as [|? ? Hcur Hrest]; subst.
    destruct (N.eqb_spec c sep) as [->|Hc].
    + constructor; [simpl; tauto | now constructor].
    + constructor; [|assumption]. simpl. intros [E|E]; [congruence | tauto].
Qed.

Lemma split_join (sep : codeunit) (a : list jsstring) :
  a <> [] -> Forall (fun l => ~ In sep l) a -> split sep (join sep a) = a.
Proof.
  intros Ha Hall. induction a as [|s a IH]; [contradiction|].
  inversion Hall as [|? ? Hs Ha']; subst.
  destruct a as [|t a].
  - now apply split_without_sep.
  - change (join sep (s :: t :: a)) with (s ++ sep :: join sep (t :: a)).
    rewrite split_app, split_without_sep by assumption.
    now rewrite IH by (discriminate || assumption).
Qed.

Lemma findIndexFrom_app_found {A : Type} (p : A -> bool) (a b : list A) (k : Z) :
  findIndexFrom p a k <> -1 -> findIndexFrom p (a ++ b) k = findIndexFrom p a k.
Proof.
  revert k; induction a as [|x a IH]; intros k; simpl; [congruence|].
  destruct (p x); [reflexivity | apply IH].
Qed.




(** ** The two slices of [splitSource] *)

(** Whatever the boundary, the two slices are a cut of the lines: every
    line of the first could be an import-block line, and the second is not
    empty. *)
Lemma slices_cut (code : jsstring) :
  lines code = slice (lines code) 0 (Some (bodyStart code)) ++ body code
  /\ forallb couldBeImportBlockLine (slice (lines code) 0 (Some (bodyStart code))) = true
  /\ body code <> [].
Proof.
  pose proof (split_nonempty LF code) as Hne. fold (lines code) in Hne.
  destruct (bodyStart_cases code) as [[Hall Hb]|(n & line & Hb & Hn & Hl & Hbefore)].
  - destruct (slices_without_boundary code Hb) as [-> ->]. repeat split.
    + now apply app_removelast_last.
    + rewrite forallb_forall in *. intros l Hl. apply Hall.
      destruct (exists_last Hne) as (front & x & E). rewrite E in *.
      rewrite removelast_last in Hl. apply in_or_app. now left.
    + discriminate.
  - assert (0 <= bodyStart code) as H0 by lia.
    destruct (slices_at_boundary code H0) as [-> ->].
    rewrite Hb, Nat2Z.id. repeat split.
    + symmetry. apply firstn_skipn.
    + apply forallb_forall. intros l Hin.
      apply In_nth_error in Hin as [m Hm].
      assert (m < List.length (firstn n (lines code)))%nat as Hlen
          by (apply nth_error_Some; congruence).
      rewrite length_firstn in Hlen.
      rewrite nth_error_firstn in Hm.
      destruct (Nat.ltb_spec m n); [|lia].
      now apply (Hbefore m).
    + intros E. apply (f_equal (@List.length _)) in E.
      rewrite length_skipn in E. simpl in E.
      assert (n < List.length (lines code))%nat by (apply nth_error_Some; congruence).
      lia.
Qed.

Lemma lines_without_LF (code : jsstring) :
  Forall (fun l => ~ In LF l) (lines code).
Proof. apply split_lines_without_sep. Qed.

(** The lines of the body text are the body lines. *)
Lemma lines_of_body_text (code : jsstring) :
  lines (join LF (body code)) = body code.
Proof.
  destruct (slices_cut code) as (Hcut & _ & Hne).
  apply split_join; [assumption|].
  pose proof (lines_without_LF code) as H. rewrite Hcut in H.
  now apply Forall_app in H.
Qed.

(** The lines of the import text could all be import-block lines: they are
    the import lines, or one empty line when there is none. *)
Lemma lines_of_import_text (code : jsstring) :
  forallb couldBeImportBlockLine
    (lines (join LF (slice (lines code) 0 (Some (bodyStart code))))) = true.
Proof.
  destruct (slices_cut code) as (Hcut & Hall & _).
  destruct (slice (lines code) 0 (Some (bodyStart code))) as [|s a] eqn:E.
  - reflexivity.
  - unfold lines at 1. rewrite split_join; [assumption | discriminate |].
    pose proof (lines_without_LF code) as H. rewrite Hcut in H.
    now apply Forall_app in H.
Qed.

Lemma import_start_could_be_import_block (line : jsstring) :
  isImportStatementStart line = true -> couldBeImportBlockLine line = true.
Proof.
  intros H. unfold couldBeImportBlockLine. rewrite H.
  now rewrite !orb_true_r.
Qed.

(** ** Inputs without a boundary, in general *)

Lemma splitSource_at_last_line (code : jsstring) :
  forallb couldBeImportBlockLine (lines code) = true ->
  splitSource code
  = (if isImportStatementStart (last (lines code) [])
     then Throw {| lineNumber := -1 |}
     else Return (join LF (removelast (lines code)), last (lines code) [])).
Proof.
  intros Hall. destruct (all_import_lines_split code Hall) as (Hb & Hbody & Himp).
  rewrite splitSource_guard, Himp, Hbody, Hb. unfold findIndex. simpl.
  now destruct (isImportStatementStart (last (lines code) [])).
Qed.

(** X1: when every line could be an import-block line, [splitSource] looks
    at the last line only: it throws with line number [-1] when that line
    starts with [import ], and otherwise returns the lines before it as
    import text and the last line as body text; with two lines or more the
    two texts and a newline between them are the input again. *)
Theorem splitSource_without_boundary (code : jsstring) :
  forallb couldBeImportBlockLine (lines code) = true ->
  splitSource code
  = (if isImportStatementStart (last (lines code) [])
     then Throw {| lineNumber := -1 |}
     else Return (join LF (removelast (lines code)), last (lines code) []))
  /\ ((2 <= List.length (lines code))%nat ->
      join LF (removelast (lines code)) ++ LF :: last (lines code) [] = code).
Proof.
  intros Hall. split; [now apply splitSource_at_last_line|].
  intros Hlen.
  pose proof (split_nonempty LF code) as Hne. fold (lines code) in Hne.
  destruct (exists_last Hne) as (front & x & E).
  rewrite E in *. rewrite removelast_last, last_last.
  change (x) with (join LF [x]) at 1. rewrite <- join_app.
  - rewrite <- E. apply join_split.
  - intros ->. simpl in Hlen. lia.
  - discriminate.
Qed.

(** The theorem on two comment lines. *)
Lemma splitSource_without_boundary_witness :
  splitSource (lit "// a" ++ LF :: lit "// b") = Return (lit "// a", lit "// b").
Proof.
  exact (proj1 (splitSource_without_boundary (lit "// a" ++ LF :: lit "// b") eq_refl)).
Defined.

(** ** The range of the reported line *)

(** X2: the line number of a thrown error is [-1] when no line ends the
    import region, and otherwise lies strictly after the boundary and before
    the line count; in particular it is never 0. *)
Theorem thrown_lineNumber_range (code : jsstring) (e : ImportInBodyError) :
  splitSource code = Throw e ->
  (lineNumber e = -1 /\ bodyStart code = -1)
  \/ (0 <= bodyStart code < lineNumber e
      /\ lineNumber e < Z.of_nat (List.length (lines code))).
Proof.
  intros Hs.
  destruct (bodyStart_cases code) as [[Hall Hb]|(n & line & Hb & Hn & Hl & _)].
  - left. split; [|assumption].
    pose proof (splitSource_at_last_line code Hall) as Hs'.
    rewrite Hs in Hs'.
    destruct (isImportStatementStart (last (lines code) [])); [|discriminate].
    now injection Hs' as ->.
  - right. assert (0 <= bodyStart code) as H0 by lia.
    destruct (lineNumber_at_boundary code e H0 Hs) as (m & l & Hm & Hge & Hnth & Himp & _).
    assert (m < List.length (lines code))%nat by (apply nth_error_Some; congruence).
    assert (m <> n).
    { intros ->. rewrite Hn in Hnth. injection Hnth as <-.
      rewrite (import_start_could_be_import_block _ Himp) in Hl. discriminate. }
    lia.
Qed.

(** The theorem at scenario B. *)
Lemma thrown_lineNumber_range_witness :
  (1 = -1 /\ bodyStart scenarioB = -1)
  \/ (0 <= bodyStart scenarioB < 1
      /\ 1 < Z.of_nat (List.length (lines scenarioB))).
Proof.
  exact (thrown_lineNumber_range scenarioB {| lineNumber := 1 |} eq_refl).
Defined.

(** ** What the returned texts hold *)

(** X3: in a returned pair, every line of the import text could be an
    import-block line, no line of the body text starts with [import ], and,
    when some line ends the import region, the first line of the body text
    is that line, one that could not be an import-block line. *)
Theorem splitSource_regions_invariant (code imports bodyText : jsstring) :
  splitSource code = Return (imports, bodyText) ->
  forallb couldBeImportBlockLine (lines imports) = true
  /\ existsb isImportStatementStart (lines bodyText) = false
  /\ (0 <= bodyStart code ->
      exists line rest, lines bodyText = line :: rest
                        /\ couldBeImportBlockLine line = false).
Proof.
  intros Hs. rewrite splitSource_guard in Hs.
  destruct (existsb isImportStatementStart (body code)) eqn:E; [discriminate|].
  injection Hs as <- <-. rewrite lines_of_body_text. repeat split.
  - apply lines_of_import_text.
  - assumption.
  - intros H0. destruct (slices_at_boundary code H0) as [_ ->].
    destruct (bodyStart_cases code) as [[_ Hb]|(n & line & Hb & Hn & Hl & _)]; [lia|].
    rewrite Hb, Nat2Z.id.
    destruct (nth_error_split _ _ Hn) as (l1 & l2 & Hsplit & Hlen).
    exists line, l2. split; [|assumption].
    rewrite Hsplit, <- Hlen, skipn_app, Nat.sub_diag, skipn_all. reflexivity.
Qed.

(** The theorem at scenario C. *)
Lemma splitSource_regions_invariant_witness :
  forallb couldBeImportBlockLine
    (lines (lit "import {" ++ LF :: lit "  a," ++ LF :: lit "  b" ++ LF
                :: lit "} from " ++ DQ :: lit "x" ++ DQ :: lit ";")) = true
  /\ existsb isImportStatementStart (lines (lit "body();")) = false
  /\ (0 <= bodyStart scenarioC ->
      exists line rest, lines (lit "body();") = line :: rest
                        /\ couldBeImportBlockLine line = false).
Proof.
  exact (splitSource_regions_invariant scenarioC _ _ eq_refl).
Defined.

(** ** The output of [transform] *)

Lemma wrapInIife_tokens (code : jsstring) :
  wrapInIife code = iifeOpen ++ code ++ iifeClose ++ [LF].
Proof. unfold wrapInIife, iifeOpen, iifeClose. now rewrite <- app_assoc. Qed.

Lemma recombine_after_boundary (code : jsstring) :
  0 < bodyStart code ->
  join LF (slice (lines code) 0 (Some (bodyStart code))) ++ LF :: join LF (body code)
  = code.
Proof.
  intros Hpos. assert (0 <= bodyStart code) as H0 by lia.
  destruct (slices_at_boundary code H0) as [-> ->].
  pose proof (bodyStart_range code) as R.
  rewrite join_firstn_skipn by lia. apply join_split.
Qed.

(** What [transform] returns as text comes from a returned pair. *)
Lemma transform_returns_text
  (filter : jsstring -> bool) (code id out : jsstring) :
  transform filter code id = Return (Some out) ->
  filter id = true
  /\ existsb isImportStatementStart (body code) = false
  /\ out = join LF (slice (lines code) 0 (Some (bodyStart code)))
             ++ LF :: wrapInIife (join LF (body code)).
Proof.
  unfold transform. destruct (filter id); simpl; [|discriminate].
  rewrite splitSource_guard.
  destruct (existsb isImportStatementStart (body code)); [discriminate|].
  intros H. injection H as <-. now repeat split.
Qed.

(** X4: when some line ends the import region and [transform] returns a
    text, that text is the input with the wrapper put around its body and
    nothing else changed.  With a boundary after the first line, the input
    is the import text, a newline and the body text that [splitSource]
    returns, the import text being the lines before the boundary and the
    body text the lines from the boundary on; the output has the opening
    text between that newline and the body text and the closing text and a
    newline at the end, 21 code units more.  With a boundary at line 0 the
    output is a newline, the opening text, the whole input and the closing
    text, 22 code units more. *)
Theorem transform_inserts_wrapper
  (filter : jsstring -> bool) (code id out : jsstring) :
  0 <= bodyStart code ->
  transform filter code id = Return (Some out) ->
  (0 < bodyStart code ->
   exists imports bodyText,
     splitSource code = Return (imports, bodyText)
     /\ lines imports = firstn (Z.to_nat (bodyStart code)) (lines code)
     /\ lines bodyText = skipn (Z.to_nat (bodyStart code)) (lines code)
     /\ code = imports ++ LF :: bodyText
     /\ out = imports ++ LF :: iifeOpen ++ bodyText ++ iifeClose ++ [LF]
     /\ List.length out = (List.length code + 21)%nat)
  /\ (bodyStart code = 0 ->
      out = LF :: iifeOpen ++ code ++ iifeClose ++ [LF]
      /\ List.length out = (List.length code + 22)%nat).
Proof.
  intros H0 Ht. apply transform_returns_text in Ht as (_ & Hguard & ->).
  rewrite wrapInIife_tokens. split.
  - intros Hpos.
    pose proof (recombine_after_boundary code Hpos) as Hcode.
    pose proof (bodyStart_range code) as R.
    destruct (slices_at_boundary code H0) as [Hi Hbody].
    exists (join LF (slice (lines code) 0 (Some (bodyStart code)))),
           (join LF (body code)).
    split; [rewrite splitSource_guard; now rewrite Hguard|].
    split.
    { rewrite Hi. apply split_join.
      - intros E. apply (f_equal (@List.length _)) in E.
        rewrite length_firstn in E. simpl in E. lia.
      - pose proof (lines_without_LF code) as Hnl.
        rewrite <- (firstn_skipn (Z.to_nat (bodyStart code)) (lines code)) in Hnl.
        now apply Forall_app in Hnl. }
    split; [now rewrite lines_of_body_text|].
    split; [now symmetry|]. split; [reflexivity|].
    apply (f_equal (@List.length _)) in Hcode.
    rewrite length_app in Hcode. cbn [List.length] in Hcode.
    rewrite length_app. cbn [List.length]. rewrite !length_app.
    change (List.length iifeOpen) with 14%nat.
    change (List.length iifeClose) with 6%nat.
    cbn [List.length]. unfold jsstring, codeunit in *. lia.
  - intros Hb. destruct (slices_at_boundary code H0) as [-> ->]. rewrite Hb.
    change (Z.to_nat 0) with 0%nat. rewrite firstn_O, skipn_O.
    unfold lines. rewrite join_split. split; [reflexivity|].
    cbn [join app List.length]. rewrite !length_app.
    change (List.length iifeOpen) with 14%nat.
    change (List.length iifeClose) with 6%nat.
    cbn [List.length]. lia.
Qed.

(** The theorem at scenario C, whose boundary is line 4. *)
Lemma transform_inserts_wrapper_witness :
  exists imports bodyText,
    splitSource scenarioC = Return (imports, bodyText)
    /\ lines imports = firstn (Z.to_nat (bodyStart scenarioC)) (lines scenarioC)
    /\ lines bodyText = skipn (Z.to_nat (bodyStart scenarioC)) (lines scenarioC)
    /\ scenarioC = imports ++ LF :: bodyText
    /\ (lit "import {" ++ LF :: lit "  a," ++ LF :: lit "  b" ++ LF
            :: lit "} from " ++ DQ :: lit "x" ++ DQ :: lit ";" ++ LF
            :: lit "(function() {" ++ LF :: lit "body();" ++ LF
            :: lit "})();" ++ [LF])
       = imports ++ LF :: iifeOpen ++ bodyText ++ iifeClose ++ [LF]
    /\ List.length
         (lit "import {" ++ LF :: lit "  a," ++ LF :: lit "  b" ++ LF
              :: lit "} from " ++ DQ :: lit "x" ++ DQ :: lit ";" ++ LF
              :: lit "(function() {" ++ LF :: lit "body();" ++ LF
              :: lit "})();" ++ [LF])
       = (List.length scenarioC + 21)%nat.
Proof.
  refine (proj1 (transform_inserts_wrapper (fun _ => true) scenarioC
                   (lit "triggers/a/script.js") _ _ eq_refl) _).
  - vm_compute. discriminate.
  - vm_compute. reflexivity.
Defined.

(** ** A blank line before the body *)

(** X5: for an input whose first line already ends the import region, the
    same input after one more leading newline is split into the same pair of
    texts, so the two inputs are transformed into the same text; a thrown
    error only counts the added line. *)
Theorem splitSource_leading_newline (code : jsstring) :
  bodyStart code = 0 ->
  splitSource (LF :: code)
  = match splitSource code with
    | Return r => Return r
    | Throw e => Throw {| lineNumber := lineNumber e + 1 |}
    end
  /\ forall (filter : jsstring -> bool) (id : jsstring),
      transform filter (LF :: code) id
      = match transform filter code id with
        | Return r => Return r
        | Throw e => Throw {| lineNumber := lineNumber e + 1 |}
        end.
Proof.
  intros Hb.
  assert (splitSource (LF :: code)
          = match splitSource code with
            | Return r => Return r
            | Throw e => Throw {| lineNumber := lineNumber e + 1 |}
            end) as Hsplit; [|split; [exact Hsplit|];
    intros filter id; unfold transform; rewrite Hsplit;
    destruct (filter id); [|reflexivity];
    now destruct (splitSource code) as [[i b]|e]].
  assert (lines (LF :: code) = [] :: lines code) as Hl
      by (unfold lines; exact (split_app LF [] code)).
  destruct (bodyStart_cases code) as [[_ H]|(n & line & Hn & Hnth & Hline & _)];
    [lia|].
  assert (n = 0%nat) by lia. subst n.
  destruct (lines code) as [|x rest] eqn:EL; [discriminate|].
  injection Hnth as ->.
  assert (bodyStart (LF :: code) = 1) as Hb1.
  { unfold bodyStart, findIndex. rewrite Hl. simpl. now rewrite Hline. }
  assert (0 <= bodyStart code) as H0 by lia.
  assert (0 <= bodyStart (LF :: code)) as H1 by lia.
  destruct (slices_at_boundary code H0) as [Hi Hbody].
  destruct (slices_at_boundary (LF :: code) H1) as [Hi1 Hbody1].
  rewrite Hb, EL in Hi, Hbody. rewrite Hb1, Hl in Hi1, Hbody1.
  change (Z.to_nat 0) with 0%nat in *. change (Z.to_nat 1) with 1%nat in *.
  simpl in Hi, Hbody, Hi1, Hbody1.
  rewrite !splitSource_guard, Hbody, Hbody1, Hb, Hb1, Hl, EL, Hi, Hi1.
  destruct (existsb isImportStatementStart (line :: rest)); [|reflexivity].
  cbn [lineNumber]. f_equal. f_equal. lia.
Qed.

(** The theorem on [g();]. *)
Lemma splitSource_leading_newline_witness :
  splitSource (LF :: lit "g();") = Return ([], lit "g();")
  /\ transform (fun _ => true) (LF :: lit "g();") (lit "triggers/a/script.js")
     = Return (Some (LF :: wrapInIife (lit "g();"))).
Proof.
  split.
  - exact (proj1 (splitSource_leading_newline (lit "g();") eq_refl)).
  - exact (proj2 (splitSource_leading_newline (lit "g();") eq_refl)
                 (fun _ => true) (lit "triggers/a/script.js")).
Defined.

(** ** Running [transform] on its own output *)





(** ** Text after the boundary *)

(** X7: once some line ends the import region, text added after the input
    moves neither the boundary nor the import lines; the added lines only
    join the body, and an error thrown without them is thrown with them,
    with the same line number. *)
Theorem appended_text_keeps_boundary (code more : jsstring) :
  0 <= bodyStart code ->
  bodyStart (code ++ LF :: more) = bodyStart code
  /\ slice (lines (code ++ LF :: more)) 0 (Some (bodyStart (code ++ LF :: more)))
     = slice (lines code) 0 (Some (bodyStart code))
  /\ body (code ++ LF :: more) = body code ++ lines more
  /\ (forall e, splitSource code = Throw e ->
                splitSource (code ++ LF :: more) = Throw e).
Proof.
  intros H0.
  assert (bodyStart (code ++ LF :: more) = bodyStart code
          /\ slice (lines (code ++ LF :: more)) 0
                   (Some (bodyStart (code ++ LF :: more)))
             = slice (lines code) 0 (Some (bodyStart code))
          /\ body (code ++ LF :: more) = body code ++ lines more) as Hcut;
    [|destruct Hcut as (Hb & Hi & Hbody); repeat split; try assumption;
      intros e; rewrite !splitSource_guard, Hb, Hbody, existsb_app;
      destruct (existsb isImportStatementStart (body code)) eqn:E; [|discriminate];
      intros He; simpl; rewrite <- He; do 3 f_equal;
      apply findIndexFrom_app_found;
      destruct (findIndex_spec isImportStatementStart (body code))
        as [[C _]|(n & x & Hf & _)]; [congruence | unfold findIndex in Hf; lia]].
  assert (lines (code ++ LF :: more) = lines code ++ lines more) as Hl
      by apply split_app.
  assert (bodyStart (code ++ LF :: more) = bodyStart code) as Hb.
  { unfold bodyStart at 1, findIndex. rewrite Hl.
    apply findIndexFrom_app_found. fold (bodyStart code). unfold bodyStart, findIndex in H0. lia. }
  pose proof (bodyStart_range code) as R.
  assert (0 <= bodyStart (code ++ LF :: more)) as H1 by lia.
  destruct (slices_at_boundary code H0) as [-> ->].
  destruct (slices_at_boundary _ H1) as [-> ->].
  rewrite Hb, Hl. split; [reflexivity|]. split.
  - rewrite firstn_app.
    replace (Z.to_nat (bodyStart code) - List.length (lines code))%nat with 0%nat by lia.
    now rewrite firstn_O, app_nil_r.
  - rewrite skipn_app.
    replace (Z.to_nat (bodyStart code) - List.length (lines code))%nat with 0%nat by lia.
    now rewrite skipn_O.
Qed.

(** The theorem on scenario B followed by [h();]. *)
Lemma appended_text_keeps_boundary_witness :
  bodyStart (scenarioB ++ LF :: lit "h();") = bodyStart scenarioB
  /\ slice (lines (scenarioB ++ LF :: lit "h();")) 0
           (Some (bodyStart (scenarioB ++ LF :: lit "h();")))
     = slice (lines scenarioB) 0 (Some (bodyStart scenarioB))
  /\ body (scenarioB ++ LF :: lit "h();") = body scenarioB ++ lines (lit "h();")
  /\ (forall e, splitSource scenarioB = Throw e ->
                splitSource (scenarioB ++ LF :: lit "h();") = Throw e).
Proof.
  refine (appended_text_keeps_boundary scenarioB (lit "h();") _).
  vm_compute. discriminate.
Defined.

(** ** An import-block line before the input *)

Lemma findIndexFrom_shift {A : Type} (p : A -> bool) (a : list A) (k : Z) :
  findIndexFrom p a k = if existsb p a then k + findIndexFrom p a 0 else -1.
Proof.
  revert k; induction a as [|x a IH]; intros k; simpl; [reflexivity|].
  destruct (p x); simpl; [lia|].
  rewrite (IH (k + 1)), (IH 1). destruct (existsb p a); lia.
Qed.

(** X9: when some line ends the import region, one more line in front that
    could be an import-block line moves the boundary by one: the body text
    is the same, the new line leads the import text, and a thrown error
    carries the line number plus one. *)
Theorem prepended_import_line (line code : jsstring) :
  ~ In LF line ->
  couldBeImportBlockLine line = true ->
  0 <= bodyStart code ->
  bodyStart (line ++ LF :: code) = bodyStart code + 1
  /\ splitSource (line ++ LF :: code)
     = match splitSource code with
       | Throw e => Throw {| lineNumber := lineNumber e + 1 |}
       | Return (_, bodyText) =>
           Return (join LF (line :: slice (lines code) 0 (Some (bodyStart code))),
                   bodyText)
       end.
Proof.
  intros Hnl Hline H0.
  assert (lines (line ++ LF :: code) = line :: lines code) as Hl.
  { unfold lines. now rewrite split_app, split_without_sep. }
  assert (bodyStart (line ++ LF :: code) = bodyStart code + 1) as Hb.
  { unfold bodyStart, findIndex in *. rewrite Hl. simpl. rewrite Hline. simpl.
    rewrite findIndexFrom_shift.
    rewrite (findIndexFrom_shift _ (lines code) 0) in H0.
    destruct (existsb _ (lines code)); lia. }
  split; [exact Hb|].
  assert (0 <= bodyStart (line ++ LF :: code)) as H1 by lia.
  destruct (slices_at_boundary code H0) as [Hi Hbody].
  destruct (slices_at_boundary _ H1) as [Hi1 Hbody1].
  rewrite Hb, Hl in Hi1, Hbody1.
  replace (Z.to_nat (bodyStart code + 1)) with (S (Z.to_nat (bodyStart code)))
    in Hi1, Hbody1 by lia.
  simpl in Hi1, Hbody1. rewrite <- Hi in Hi1. rewrite <- Hbody in Hbody1.
  rewrite !splitSource_guard, Hbody1.
  destruct (existsb isImportStatementStart (body code)).
  - cbn [lineNumber]. rewrite Hb. do 2 f_equal. lia.
  - rewrite Hl, Hb, Hi1. reflexivity.
Qed.

(** The theorem on a comment line before scenario B. *)
Lemma prepended_import_line_witness :
  bodyStart (lit "// c" ++ LF :: scenarioB) = 1
  /\ splitSource (lit "// c" ++ LF :: scenarioB) = Throw {| lineNumber := 2 |}.
Proof.
  refine (prepended_import_line (lit "// c") scenarioB _ eq_refl _).
  - vm_compute. intuition discriminate.
  - vm_compute. discriminate.
Defined.

(** ** The message of the error *)

Lemma lit_injective (s t : string) : lit s = lit t -> s = t.
Proof.
  unfold lit. intros H.
  rewrite <- (string_of_list_ascii_of_string s), <- (string_of_list_ascii_of_string t).
  f_equal. revert H.
  generalize (list_ascii_of_string s) (list_ascii_of_string t).
  intros l. induction l as [|a l IH]; intros [|b l']; simpl; try discriminate.
  - reflexivity.
  - intros H. injection H as Hab Hl. f_equal; [|now apply IH].
    rewrite <- (ascii_N_embedding a), <- (ascii_N_embedding b). now rewrite Hab.
Qed.

Lemma numberToString_injective (n m : Z) :
  numberToString n = numberToString m -> n = m.
Proof.
  unfold numberToString. intros H. apply lit_injective in H.
  apply (f_equal NilEmpty.int_of_string) in H.
  rewrite !NilEmpty.isi in H. injection H as H.
  now apply DecimalZ.to_int_inj.
Qed.

(** X8: for line numbers in the range of exact integers, two errors have
    the same message exactly when they carry the same line number. *)
Theorem message_determines_lineNumber (e1 e2 : ImportInBodyError) :
  - 9007199254740992 < lineNumber e1 < 9007199254740992 ->
  - 9007199254740992 < lineNumber e2 < 9007199254740992 ->
  (message e1 = message e2 <-> lineNumber e1 = lineNumber e2).
Proof.
  intros _ _. unfold message. split.
  - intros H. apply app_inv_head in H. apply app_inv_tail in H.
    now apply numberToString_injective.
  - now intros ->.
Qed.

(** The theorem on the numbers of C4 and of scenario B. *)
Lemma message_determines_lineNumber_witness :
  message {| lineNumber := -1 |} <> message {| lineNumber := 1 |}.
Proof.
  intros H.
  apply (message_determines_lineNumber {| lineNumber := -1 |} {| lineNumber := 1 |}) in H.
  - discriminate.
  - simpl. lia.
  - simpl. lia.
Defined.
